(** * Address-book form workflow: field-state container and address search

  A shallow embedding of the React hook [useFormState]
  (src/unnamed/part_000), of the [App] component's handlers
  (src/unnamed/part_002) and of what the [Button] and [Form] components
  compute, with the properties of the natural-language specification, and
  further properties read off the code, stated over them.

  JavaScript objects are finite maps from property names to values,
  React state is threaded explicitly, and the two effects of the
  component that leave it, [fetch] and [addAddress], are logged in the
  state. *)

From Stdlib Require Import String Ascii List ZArith Lia.
From stdpp Require Import gmap strings list fin_maps pretty.

Open Scope string_scope.

(** ** JavaScript values *)

(** The values that occur in the modelled code: [undefined] (the result of
  reading an absent property), strings (every form field, every message)
  and numbers (the index that [Array.prototype.map] hands to its
  callback). *)
Inductive jsval : Type :=
| VUndefined
| VStr (s : string)
| VNum (n : Z).

#[global] Instance jsval_eq_dec : EqDecision jsval.
Proof. solve_decision. Defined.

(** A plain object: property name to value. *)
Abbreviation Obj := (gmap string jsval).

(** [o.k]: reading an absent property yields [undefined]. *)
Definition js_get (o : Obj) (k : string) : jsval := default VUndefined (o !! k).

(** JavaScript truthiness, as used by [!x], [x && y] and [if (x)]. *)
Definition truthy (v : jsval) : bool :=
  match v with
  | VUndefined => false
  | VStr EmptyString => false
  | VStr _ => true
  | VNum n => negb (n =? 0)%Z
  end.

(** [ToString]. *)
Definition js_to_string (v : jsval) : string :=
  match v with
  | VUndefined => "undefined"
  | VStr s => s
  | VNum n => pretty n
  end.

(** [a === b] on the values above. *)
Definition strict_eq (a b : jsval) : bool := bool_decide (a = b).

(** ** The field-state container: [useFormState] *)

Module FormState.

(** Objects live in a store and the hook holds references into it, so
    that [setFields(initialValues)], which makes the current state the
    very object that was passed in, is modelled as the aliasing it is. *)
Definition ref := nat.

Record Hook : Type := {
  store : gmap ref Obj;     (* every object allocated so far *)
  next : ref;               (* the next free reference *)
  fieldsRef : ref;          (* the [fields] state cell *)
  initialValuesRef : ref;   (* the [initialValues] argument *)
}.

Definition deref (h : Hook) (r : ref) : Obj := default ∅ (store h !! r).

(** What the hook returns as [fields]. *)
Definition fields (h : Hook) : Obj := deref h (fieldsRef h).

(** The stored defaults. *)
Definition initialValues (h : Hook) : Obj := deref h (initialValuesRef h).

(** [useFormState(initialValues)]: [useState(initialValues)] starts the
    state cell at the object passed in. The caller is taken to pass the
    same initial mapping on every render. *)
Definition useFormState (initial : Obj) : Hook :=
  {| store := {[ 0 := initial ]}; next := 1;
     fieldsRef := 0; initialValuesRef := 0 |}.

(** [setFields(prev => ({...prev, [name]: value}))]: a new object is
    allocated that copies [prev] and overrides [name]; [prev] itself is
    not written. [value] is [e.target.value], a string. *)
Definition onChange (name value : string) (h : Hook) : Hook :=
  {| store := <[ next h := <[ name := VStr value ]> (fields h) ]> (store h);
     next := S (next h);
     fieldsRef := next h;
     initialValuesRef := initialValuesRef h |}.

(** [setFields(initialValues)]. *)
Definition resetFields (h : Hook) : Hook :=
  {| store := store h; next := next h;
     fieldsRef := initialValuesRef h;
     initialValuesRef := initialValuesRef h |}.

(** The calls a client can make on the container. *)
Inductive Action : Type :=
| Change (name value : string)
| Reset.

Definition act (h : Hook) (a : Action) : Hook :=
  match a with
  | Change name value => onChange name value h
  | Reset => resetFields h
  end.

Definition run (acts : list Action) (h : Hook) : Hook := fold_left act acts h.

(** Both references point below the allocation pointer. *)
Definition allocated (h : Hook) : Prop :=
  fieldsRef h < next h ∧ initialValuesRef h < next h.

End FormState.


(** ** Percent-encoding, as the platform does it *)

(** Strings are sequences of bytes holding UTF-8 text, so that the two
    platform encoders below, which both work on the UTF-8 encoding of
    their argument, act byte by byte. *)
Module Encoding.

Definition is_alnum (c : ascii) : bool :=
  let n := N_of_ascii c in
  ((48 <=? n) && (n <=? 57) || (65 <=? n) && (n <=? 90)
   || (97 <=? n) && (n <=? 122))%N.

Definition one_of (set : string) (c : ascii) : bool :=
  existsb (Ascii.eqb c) (list_ascii_of_string set).

Definition hex_digit (n : N) : ascii :=
  ascii_of_N (if (n <? 10)%N then 48 + n else 55 + n)%N.

(** [%XX], upper-case hexadecimal. *)
Definition percent_byte (c : ascii) : string :=
  let n := N_of_ascii c in
  String "%" (String (hex_digit (n / 16)) (String (hex_digit (n mod 16)) EmptyString)).

Fixpoint encode_with (keep : ascii → string) (s : string) : string :=
  match s with
  | EmptyString => EmptyString
  | String c rest => keep c +:+ encode_with keep rest
  end.

(** ECMAScript [encodeURIComponent]: letters, digits and the marks
    [- _ . ! ~ * ' ( )] are kept, every other byte becomes [%XX]. *)
Definition uri_component_byte (c : ascii) : string :=
  if is_alnum c || one_of "-_.!~*'()" c then String c EmptyString
  else percent_byte c.

Definition encodeURIComponent (s : string) : string :=
  encode_with uri_component_byte s.

(** The [application/x-www-form-urlencoded] serializer behind
    [URLSearchParams.prototype.toString]: letters, digits and [* - . _]
    are kept, a space becomes [+], every other byte (the percent sign
    among them) becomes [%XX]. *)
Definition urlencoded_byte (c : ascii) : string :=
  if Ascii.eqb c " " then "+"
  else if is_alnum c || one_of "*-._" c then String c EmptyString
  else percent_byte c.

Definition urlencoded (s : string) : string := encode_with urlencoded_byte s.

(** A [URLSearchParams] object: its list of name-value pairs. *)
Definition URLSearchParams := list (string * string).

Definition append (name value : string) (params : URLSearchParams)
  : URLSearchParams :=
  (params ++ [(name, value)])%list.

Fixpoint toString (params : URLSearchParams) : string :=
  match params with
  | [] => EmptyString
  | [(name, value)] => urlencoded name +:+ "=" +:+ urlencoded value
  | (name, value) :: rest =>
      urlencoded name +:+ "=" +:+ urlencoded value +:+ "&" +:+ toString rest
  end.

(** Bytes that both encoders keep, and strings made of them. *)
Definition plain_byte (c : ascii) : bool := is_alnum c || one_of "-_.*" c.

Fixpoint plain (s : string) : bool :=
  match s with
  | EmptyString => true
  | String c rest => plain_byte c && plain rest
  end.

End Encoding.

(** ** The address-resolution workflow: the [App] component *)

Module Workflow.

(** *** Component state and effects *)

Record App : Type := {
  form : FormState.Hook;            (* useFormState({...}) *)
  loading : bool;                   (* useState(false) *)
  error : option string;            (* useState<undefined | string>(undefined) *)
  addresses : list Obj;             (* useState<AddressType[]>([]) *)
  requests : list string;           (* URLs handed to fetch, oldest first *)
  inflight : nat;                   (* fetches not yet settled *)
  addressBook : list Obj;           (* arguments of addAddress, oldest first *)
}.

Definition setLoading (b : bool) (s : App) : App :=
  {| form := form s; loading := b; error := error s;
     addresses := addresses s; requests := requests s;
     inflight := inflight s; addressBook := addressBook s |}.

Definition setError (e : option string) (s : App) : App :=
  {| form := form s; loading := loading s; error := e;
     addresses := addresses s; requests := requests s;
     inflight := inflight s; addressBook := addressBook s |}.

Definition setAddresses (l : list Obj) (s : App) : App :=
  {| form := form s; loading := loading s; error := error s;
     addresses := l; requests := requests s;
     inflight := inflight s; addressBook := addressBook s |}.

Definition setForm (h : FormState.Hook) (s : App) : App :=
  {| form := h; loading := loading s; error := error s;
     addresses := addresses s; requests := requests s;
     inflight := inflight s; addressBook := addressBook s |}.

(** [fetch(url)]: the request is recorded and one more response is
    awaited. *)
Definition fetch (url : string) (s : App) : App :=
  {| form := form s; loading := loading s; error := error s;
     addresses := addresses s; requests := (requests s ++ [url])%list;
     inflight := S (inflight s); addressBook := addressBook s |}.

Definition settled (s : App) : App :=
  {| form := form s; loading := loading s; error := error s;
     addresses := addresses s; requests := requests s;
     inflight := pred (inflight s); addressBook := addressBook s |}.

(** [addAddress(record)], the external collection's add operation. *)
Definition addAddress (record : Obj) (s : App) : App :=
  {| form := form s; loading := loading s; error := error s;
     addresses := addresses s; requests := requests s;
     inflight := inflight s;
     addressBook := (addressBook s ++ [record])%list |}.

(** [fields.k]. *)
Definition field (s : App) (k : string) : jsval :=
  js_get (FormState.fields (form s)) k.

(** The object literal passed to [useFormState] in [App]. *)
Definition initialFields : Obj :=
  <[ "postCode" := VStr EmptyString ]>
  (<[ "houseNumber" := VStr EmptyString ]>
  (<[ "firstName" := VStr EmptyString ]>
  (<[ "lastName" := VStr EmptyString ]>
  (<[ "selectedAddress" := VStr EmptyString ]> ∅)))).

(** The component as first rendered. *)
Definition initialApp : App :=
  {| form := FormState.useFormState initialFields;
     loading := false; error := None; addresses := [];
     requests := []; inflight := 0; addressBook := [] |}.

(** *** What a lookup can come back with *)

(** A value caught by [catch (error)]: an [Error] instance with its
    [message], or anything else. *)
Inductive Thrown : Type :=
| ErrorObject (message : string)
| NonError.

(** The parsed response body, [data]: the two properties the handler
    reads, each absent or present. *)
Record Body : Type := {
  details : option (list Obj);
  errormessage : option string;
}.

(** How the awaited [fetch(...)] and [response.json()] end: one of them
    rejects with a thrown value, or there is a response with its [ok] flag
    and parsed body. *)
Inductive FetchOutcome : Type :=
| Rejected (thrown : Thrown)
| Responded (ok : bool) (data : Body).

(** [new Error(m).message]: the text given, and the empty string
    inherited from [Error.prototype] when [m] is [undefined]. *)
Definition Error_message (m : option string) : string :=
  default EmptyString m.

(** The [TypeError] raised by [data.details.map] when [details] is
    absent (V8's wording). *)
Definition map_of_undefined : string :=
  "Cannot read properties of undefined (reading 'map')".

Section Handlers.

(** [BASE_URL] from ./utils/constants and [transformAddress] from
    ./core/models/address are imported by [App]; the handlers are
    stated for any value of the first and any function as the second. The
    second takes the first two arguments a callback of
    [Array.prototype.map] receives: the element and its index. *)
Variable BASE_URL : string.
Variable transformAddress : Obj → jsval → Obj.

(** The URL that [handleAddressSubmit] builds for two field values, written
    out: both encoders applied to each value. *)
Definition lookup_url (postCode houseNumber : jsval) : string :=
  BASE_URL +:+ "/api/getAddresses?postcode="
  +:+ Encoding.urlencoded (Encoding.encodeURIComponent (js_to_string postCode))
  +:+ "&streetnumber="
  +:+ Encoding.urlencoded (Encoding.encodeURIComponent (js_to_string houseNumber)).

(** [data.details.map(transformAddress)]. *)
Definition map_transformAddress (entries : list Obj) : list Obj :=
  imap (λ index entry, transformAddress entry (VNum (Z.of_nat index))) entries.

(** [handleAddressSubmit] up to its first [await]: lines 58-76. The
    result tells whether the handler is now suspended on a request. Field
    values are well-formed text, on which [encodeURIComponent] does not
    throw; the [URIError] it raises on a lone surrogate, which [catch] and
    [finally] would handle without any request, is outside this model. *)
Definition handleAddressSubmit_begin (s : App) : App * bool :=
  let postCode := field s "postCode" in
  let houseNumber := field s "houseNumber" in
  let s := setError None s in
  let s := setAddresses [] s in
  let s := setLoading true s in
  if negb (truthy postCode) || negb (truthy houseNumber) then
    (setError (Some "Post code and house number are mandatory!") s, false)
  else
    let encodedPostCode := Encoding.encodeURIComponent (js_to_string postCode) in
    let encodedHouseNumber :=
      Encoding.encodeURIComponent (js_to_string houseNumber) in
    let params : Encoding.URLSearchParams := [] in
    let params := Encoding.append "postcode" encodedPostCode params in
    let params := Encoding.append "streetnumber" encodedHouseNumber params in
    (fetch (BASE_URL +:+ "/api/getAddresses?" +:+ Encoding.toString params) s,
     true).

(** The rest of the [try] block, lines 77-83: either the list handed to
    [setAddresses] or the value thrown. *)
Definition try_block (o : FetchOutcome) : Thrown + list Obj :=
  match o with
  | Rejected thrown => inl thrown
  | Responded true data =>
      match details data with
      | Some entries => inr (map_transformAddress entries)
      | None => inl (ErrorObject map_of_undefined)
      end
  | Responded false data =>
      inl (ErrorObject (Error_message (errormessage data)))
  end.

(** [handleAddressSubmit] from the settled [await] on: the [try] block's
    end, [catch] and [finally], lines 77-90. *)
Definition handleAddressSubmit_resume (o : FetchOutcome) (s : App) : App :=
  let s := settled s in
  let s :=
    match try_block o with
    | inr transformedAddresses => setAddresses transformedAddresses s
    | inl thrown =>
        setError
          (Some match thrown with
                | ErrorObject message => message
                | NonError => "Failed to fetch addresses"
                end) s
    end in
  setLoading false s.

(** One whole run of [handleAddressSubmit] with nothing happening while
    it is suspended; [o] is how the lookup ends if one is issued. The
    source is suspended at line 74 and other events can come in between:
    [step] and [steps] below take the two halves apart. *)
Definition handleAddressSubmit (o : FetchOutcome) (s : App) : App :=
  let '(s, suspended) := handleAddressSubmit_begin s in
  if suspended then handleAddressSubmit_resume o s else s.

(** [handlePersonSubmit], lines 96-124. *)
Definition handlePersonSubmit (s : App) : App :=
  if negb (truthy (field s "firstName")) || negb (truthy (field s "lastName"))
  then setError (Some "First name and last name fields mandatory!") s
  else if negb (truthy (field s "selectedAddress"))
          || (length (addresses s) =? 0)%nat
  then
    setError
      (Some "No address selected, try to select an address or find one if you haven't")
      s
  else
    match
      find (λ address, strict_eq (js_get address "id") (field s "selectedAddress"))
           (addresses s)
    with
    | None => setError (Some "Selected address not found") s
    | Some foundAddress =>
        let s := setError (Some EmptyString) s in
        addAddress
          (<[ "lastName" := field s "lastName" ]>
             (<[ "firstName" := field s "firstName" ]> foundAddress))
          s
    end.

(** The button of lines 208-218 that clears all fields. *)
Definition clearAll (s : App) : App :=
  let s := setForm (FormState.resetFields (form s)) s in
  let s := setAddresses [] s in
  setError None s.

(** *** The component as an event-driven machine *)

Inductive Event : Type :=
| InputChange (name value : string)   (* onChange of any input or radio *)
| AddressSubmit                       (* the "Find" form is submitted *)
| FetchSettled (o : FetchOutcome)     (* an awaited lookup settles *)
| PersonSubmit                        (* "Add to addressbook" is submitted *)
| ClearAll.                           (* "Clear all fields" is clicked *)

Definition step (s : App) (e : Event) : App :=
  match e with
  | InputChange name value =>
      setForm (FormState.onChange name value (form s)) s
  | AddressSubmit => fst (handleAddressSubmit_begin s)
  | FetchSettled o =>
      if (inflight s =? 0)%nat then s else handleAddressSubmit_resume o s
  | PersonSubmit => handlePersonSubmit s
  | ClearAll => clearAll s
  end.

Definition steps (es : list Event) (s : App) : App := fold_left step es s.

End Handlers.

(** A run of [onChange] events on the inputs, as [(name, value)] pairs. *)
Definition typing (changes : list (string * string)) (s : App) : App :=
  fold_left (λ s change,
               setForm (FormState.onChange change.1 change.2 (form s)) s)
            changes s.

(** The component after a post code and a house number are typed in. *)
Definition searchTyped (postCode houseNumber : string) : App :=
  typing [("postCode", postCode); ("houseNumber", houseNumber)] initialApp.

(** The raw entry [{id: "a1", street: "Main"}] and the successful response
    that carries just it. *)
Definition entry_a1 : Obj :=
  <[ "id" := VStr "a1" ]> (<[ "street" := VStr "Main" ]> ∅).

Definition found_a1 : FetchOutcome :=
  Responded true {| details := Some [entry_a1]; errormessage := None |}.

(** The component after that search has succeeded, its candidate has been
    selected and both names have been typed in. *)
Definition readyToAdd (transformAddress : Obj → jsval → Obj) : App :=
  typing [("selectedAddress", "a1"); ("firstName", "Ada");
          ("lastName", "Lovelace")]
    (handleAddressSubmit "http://localhost:3000" transformAddress found_a1
       (searchTyped "1000AA" "1")).

(** What the render at line 200 shows: [error && <ErrorMessage>]. *)
Definition error_shown (s : App) : bool :=
  match error s with
  | Some (String _ _) => true
  | _ => false
  end.

End Workflow.

(** ** The address transform *)

Module AddressModel.

(** Modelled from the spec: ./core/models/address (the default export
    [transformAddress]) is not among the sources. Section 4.3 of the
    specification describes it as a pure function of a raw lookup entry
    and a house number that copies the entry field for field and injects
    the house number. *)
Definition transformAddress (raw : Obj) (houseNumber : jsval) : Obj :=
  <[ "houseNumber" := houseNumber ]> raw.

End AddressModel.

(** ** Notions used to state further properties of the workflow *)

Module Observing.
Import Workflow.

(** The message that [catch] stores for a thrown value, lines 85-87. *)
Definition caught_message (thrown : Thrown) : string :=
  match thrown with
  | ErrorObject message => message
  | NonError => "Failed to fetch addresses"
  end.

(** The calls on the field container that an event of the component
    makes: [onChange] for an input event, [resetFields] for the clear
    button, none for the others. *)
Definition form_actions (e : Event) : list FormState.Action :=
  match e with
  | InputChange name value => [FormState.Change name value]
  | ClearAll => [FormState.Reset]
  | AddressSubmit | FetchSettled _ | PersonSubmit => []
  end.

(** Every property of an object holds a string. *)
Definition all_strings (o : Obj) : Prop :=
  ∀ (k : string) (v : jsval), o !! k = Some v → ∃ t : string, v = VStr t.

(** Bytes that cannot end or split a query value: letters, digits and
    [* - . _ + %]. *)
Definition query_byte (c : ascii) : bool :=
  Encoding.is_alnum c || Encoding.one_of "*-._+%" c.

Fixpoint query_safe (s : string) : bool :=
  match s with
  | EmptyString => true
  | String c rest => query_byte c && query_safe rest
  end.

(** Whether an event is a lookup that settles. *)
Definition is_settlement (e : Event) : bool :=
  match e with
  | FetchSettled _ => true
  | _ => false
  end.

End Observing.

(** ** The presentational components [Button] and [Form] *)

Module Components.

(** [classnames(base, {k1: c1, ...})], as the set of class tokens of the
    resulting [className]: the base when it is a non-empty string, and
    every key of the object whose value is truthy. The object literal is a
    finite map, so that of two equal computed keys the later one wins. *)
Definition cn (base : string) (conditional : gmap string bool) : gset string :=
  (if truthy (VStr base) then {[ base ]} else ∅)
  ∪ dom (filter (λ entry, entry.2 = true) conditional).

(** The props of [Button] that decide its rendering; [onClick] and
    [children] are handed to the [button] element as they are. *)
Record ButtonProps : Type := {
  type : option string;
  variant : option string;
  loading : option bool;
}.

(** What [Button] renders on its [button] element: the class tokens, the
    [type] attribute, and whether the span with
    [data-testid="loading-spinner"] is among the children. *)
Record ButtonView : Type := {
  className : gset string;
  typeAttribute : string;
  spinner : bool;
}.

Section Button.

(** The class names of Button.module.css, [$.button], [$.primary],
    [$.secondary] and [$.loading]. *)
Variables button_class primary_class secondary_class loading_class : string.

(** [Button], src/src/ui/components/Button/Button.tsx lines 16-44, with
    the defaults of its parameters. *)
Definition Button (props : ButtonProps) : ButtonView :=
  let type := default "button" (type props) in
  let variant := default "primary" (variant props) in
  let loading := default false (loading props) in
  {| className :=
       cn button_class
          (<[ loading_class := loading ]>
          (<[ secondary_class := bool_decide (variant = "secondary") ]>
          (<[ primary_class := bool_decide (variant = "primary") ]> ∅)));
     typeAttribute := type;
     spinner := loading |}.

End Button.

(** An entry of [Form]'s [formEntries]; its [extraProps] are spread onto
    the input and play no part in what follows. *)
Record FormEntry : Type := {
  name : string;
  placeholder : string;
}.

(** The React key of each row of [Form], [`${name}-${index}`],
    src/src/ui/components/Form/Form.tsx lines 35-38. *)
Definition Form_keys (formEntries : list FormEntry) : list string :=
  imap (λ index entry, name entry +:+ "-" +:+ pretty index) formEntries.

(** A string without the separator of those keys. *)
Fixpoint dash_free (s : string) : bool :=
  match s with
  | EmptyString => true
  | String c rest => negb (Ascii.eqb c "-") && dash_free rest
  end.

(** The props of the submit button of [Form], line 46. *)
Definition Form_submit (loading : bool) : ButtonProps :=
  {| type := Some "submit"; variant := None; loading := Some loading |}.

End Components.

(** ** Properties of the container *)

Module FormStateFacts.
Import FormState.

Lemma fields_onChange name value h :
  fields (onChange name value h) = <[ name := VStr value ]> (fields h).
Proof.
  unfold fields at 1, deref; simpl. by rewrite lookup_insert_eq.
Qed.

Lemma fields_resetFields h : fields (resetFields h) = initialValues h.
Proof. reflexivity. Qed.

Lemma initialValues_onChange name value h :
  allocated h → initialValues (onChange name value h) = initialValues h.
Proof.
  intros [_ Hi]. unfold initialValues, deref; simpl.
  rewrite lookup_insert_ne; [done | lia].
Qed.

Lemma initialValues_resetFields h :
  initialValues (resetFields h) = initialValues h.
Proof. reflexivity. Qed.

Lemma allocated_act h a : allocated h → allocated (act h a).
Proof.
  intros [Hf Hi]. destruct a as [name value|]; unfold allocated; simpl; lia.
Qed.

Lemma initialValues_act h a :
  allocated h → initialValues (act h a) = initialValues h.
Proof.
  destruct a; [apply initialValues_onChange | intros _; reflexivity].
Qed.

Lemma run_preserves acts : ∀ h,
  allocated h →
  allocated (run acts h) ∧ initialValues (run acts h) = initialValues h.
Proof.
  induction acts as [|a acts IH]; intros h Hh; [done|].
  simpl. destruct (IH (act h a) (allocated_act h a Hh)) as [Ha Hi].
  split; [done|]. by rewrite Hi, initialValues_act.
Qed.

Lemma allocated_useFormState D : allocated (useFormState D).
Proof. unfold allocated; simpl; lia. Qed.

Lemma initialValues_useFormState D : initialValues (useFormState D) = D.
Proof. reflexivity. Qed.

Lemma dom_fields_act h a :
  allocated h → dom (initialValues h) ⊆ dom (fields h) →
  dom (initialValues (act h a)) ⊆ dom (fields (act h a)).
Proof.
  intros Hh Hsub. rewrite initialValues_act by done.
  destruct a as [name value|]; simpl.
  - rewrite fields_onChange, dom_insert_L. set_solver.
  - by rewrite fields_resetFields.
Qed.

Lemma dom_fields_run acts : ∀ h,
  allocated h → dom (initialValues h) ⊆ dom (fields h) →
  dom (initialValues h) ⊆ dom (fields (run acts h)).
Proof.
  induction acts as [|a acts IH]; intros h Hh Hsub; [done|].
  simpl. rewrite <- (initialValues_act h a Hh).
  apply IH; [by apply allocated_act | by apply dom_fields_act].
Qed.

(** C7. Round trip: whatever sequence of [onChange] calls (and resets) a
    container initialised with [D] has gone through, the stored defaults
    are still exactly [D], and [resetFields] makes the current state
    exactly [D] again. Changing the current state never writes to the
    defaults, although a reset makes the two the same object. *)
Theorem reset_restores_defaults (D : Obj) (acts : list Action) :
  fields (resetFields (run acts (useFormState D))) = D
  ∧ initialValues (run acts (useFormState D)) = D
  ∧ ∀ later : list Action,
      initialValues (run later (resetFields (run acts (useFormState D)))) = D.
Proof.
  destruct (run_preserves acts (useFormState D) (allocated_useFormState D))
    as [Ha Hi].
  rewrite initialValues_useFormState in Hi.
  split; [by rewrite fields_resetFields|]. split; [done|].
  intros later.
  destruct (run_preserves later (resetFields (run acts (useFormState D))))
    as [_ Hl]; [apply (allocated_act _ Reset Ha)|].
  by rewrite Hl, initialValues_resetFields.
Qed.

(** C8. Frame: [onChange name value] leaves the value of every key other
    than [name] exactly as it was and removes no key; so every key of the
    initial mapping is still present after any sequence of calls. *)
Theorem onChange_frame (h : Hook) (name value : string) :
  (∀ k : string, k ≠ name →
     fields (onChange name value h) !! k = fields h !! k)
  ∧ dom (fields h) ⊆ dom (fields (onChange name value h))
  ∧ ∀ (D : Obj) (acts : list Action),
      dom D ⊆ dom (fields (run acts (useFormState D))).
Proof.
  rewrite fields_onChange. split; [|split].
  - intros k Hk. by rewrite lookup_insert_ne.
  - rewrite dom_insert_L. set_solver.
  - intros D acts.
    apply (dom_fields_run acts (useFormState D) (allocated_useFormState D)).
    done.
Qed.

Lemma onChange_frame_witness :
  fields (onChange "firstName" "Ada"
            (useFormState Workflow.initialFields)) !! "lastName"
  = Some (VStr EmptyString).
Proof.
  rewrite (proj1 (onChange_frame (useFormState Workflow.initialFields)
                    "firstName" "Ada") "lastName"); [reflexivity | discriminate].
Defined.

End FormStateFacts.

(** ** Properties of the percent-encoders *)

Module EncodingFacts.
Import Encoding.

Lemma plain_byte_kept c :
  plain_byte c = true →
  uri_component_byte c = String c EmptyString
  ∧ urlencoded_byte c = String c EmptyString.
Proof.
  destruct c as [[] [] [] [] [] [] [] []]; vm_compute; (discriminate || done).
Qed.

(** A value made of letters, digits and [- _ . *] passes through both
    encoders unchanged. *)
Lemma plain_passes_unchanged s :
  plain s = true → urlencoded (encodeURIComponent s) = s.
Proof.
  unfold urlencoded, encodeURIComponent.
  induction s as [|c rest IH]; [done|]. simpl.
  intros [Hc Hrest]%andb_prop.
  destruct (plain_byte_kept c Hc) as [-> Hu].
  change (encode_with urlencoded_byte
            (String c (encode_with uri_component_byte rest)) = String c rest).
  cbn [encode_with]. rewrite Hu, IH by done. reflexivity.
Qed.

(** The percent sign written by the first encoder is encoded again by the
    second. *)
Lemma percent_is_encoded_again :
  urlencoded (encodeURIComponent " ") = "%2520".
Proof. reflexivity. Qed.

End EncodingFacts.

(** ** Properties of the workflow *)

Module WorkflowFacts.
Import Workflow.

Section Handlers.

Variable BASE_URL : string.
Variable transformAddress : Obj → jsval → Obj.

Local Abbreviation begin := (handleAddressSubmit_begin BASE_URL).
Local Abbreviation submit := (handleAddressSubmit BASE_URL transformAddress).
Local Abbreviation mandatory := "Post code and house number are mandatory!".

Lemma begin_invalid s :
  truthy (field s "postCode") = false ∨ truthy (field s "houseNumber") = false →
  begin s
  = (setError (Some mandatory)
       (setLoading true (setAddresses [] (setError None s))), false).
Proof.
  intros H. unfold handleAddressSubmit_begin.
  destruct H as [-> | ->]; simpl; [done|]. by rewrite orb_true_r.
Qed.

Lemma begin_valid s :
  truthy (field s "postCode") = true → truthy (field s "houseNumber") = true →
  begin s
  = (fetch (lookup_url BASE_URL (field s "postCode") (field s "houseNumber"))
       (setLoading true (setAddresses [] (setError None s))), true).
Proof.
  intros Hp Hh. unfold handleAddressSubmit_begin. rewrite Hp, Hh. simpl.
  reflexivity.
Qed.

Lemma submit_invalid o s :
  truthy (field s "postCode") = false ∨ truthy (field s "houseNumber") = false →
  submit o s
  = setError (Some mandatory)
      (setLoading true (setAddresses [] (setError None s))).
Proof.
  intros H. unfold handleAddressSubmit. by rewrite (begin_invalid s H).
Qed.

Lemma submit_valid o s :
  truthy (field s "postCode") = true → truthy (field s "houseNumber") = true →
  submit o s
  = handleAddressSubmit_resume transformAddress o
      (fetch (lookup_url BASE_URL (field s "postCode") (field s "houseNumber"))
         (setLoading true (setAddresses [] (setError None s)))).
Proof.
  intros Hp Hh. unfold handleAddressSubmit. by rewrite (begin_valid s Hp Hh).
Qed.

(** C6. A search submitted while the post code or the house number is
    empty (falsy) sets the error to the mandatory-fields message and issues
    no lookup request. *)
Theorem empty_search_is_rejected (o : FetchOutcome) (s : App) :
  truthy (field s "postCode") = false ∨ truthy (field s "houseNumber") = false →
  error (submit o s) = Some mandatory
  ∧ requests (submit o s) = requests s
  ∧ inflight (submit o s) = inflight s
  ∧ begin s = (submit o s, false).
Proof.
  intros H. rewrite (submit_invalid o s H), (begin_invalid s H). done.
Qed.

(** C10. Every search submission clears the error slot and the candidate
    list before the mandatory-field check: its outcome is that of the same
    submission on a state whose error and candidates are already cleared.
    Hence a submission that fails the check leaves the candidate list
    empty, whatever it held before. *)
Theorem failed_search_empties_candidates (o : FetchOutcome) (s : App) :
  begin s = begin (setAddresses [] (setError None s))
  ∧ (truthy (field s "postCode") = false
     ∨ truthy (field s "houseNumber") = false →
     addresses (begin s).1 = [] ∧ addresses (submit o s) = []).
Proof.
  split; [reflexivity|].
  intros H. by rewrite (submit_invalid o s H), (begin_invalid s H).
Qed.

(** C2. Failing input: the search form submitted on the freshly rendered
    component, both fields empty. The handler sets [loading] before the
    mandatory-field check and returns from the check without clearing it,
    so the state reached has [loading] on together with a shown error
    message. *)
Theorem failed_validation_leaves_loading_on (o : FetchOutcome) :
  let s := steps BASE_URL transformAddress [AddressSubmit] initialApp in
  s = submit o initialApp
  ∧ loading s = true
  ∧ error s = Some mandatory
  ∧ error_shown s = true.
Proof. done. Qed.

(** C9. Failing input: post code ["10 00"], house number ["1"]. The
    value is percent-encoded by [encodeURIComponent] and then once more by
    the serializer of [URLSearchParams], so the request carries
    [postcode=10%252000] where one percent-encoding of the post code is
    [10%2000]. *)
Theorem search_value_is_encoded_twice :
  requests (begin (searchTyped "10 00" "1")).1
  = [BASE_URL +:+ "/api/getAddresses?postcode=10%252000&streetnumber=1"]
  ∧ Encoding.encodeURIComponent "10 00" = "10%2000".
Proof. split; reflexivity. Qed.

(** The request of a search that passes validation, in general. *)
Lemma search_request s :
  truthy (field s "postCode") = true → truthy (field s "houseNumber") = true →
  requests (begin s).1
  = (requests s
     ++ [lookup_url BASE_URL (field s "postCode") (field s "houseNumber")])%list.
Proof. intros Hp Hh. by rewrite (begin_valid s Hp Hh). Qed.

(** Values of letters, digits and [- _ . *] reach the URL as typed. *)
Lemma search_request_plain postCode houseNumber :
  truthy (VStr postCode) = true → truthy (VStr houseNumber) = true →
  Encoding.plain postCode = true → Encoding.plain houseNumber = true →
  requests (begin (searchTyped postCode houseNumber)).1
  = [BASE_URL +:+ "/api/getAddresses?postcode=" +:+ postCode
     +:+ "&streetnumber=" +:+ houseNumber].
Proof.
  intros Hp Hh Hpp Hph.
  rewrite search_request by done.
  change (field (searchTyped postCode houseNumber) "postCode")
    with (VStr postCode).
  change (field (searchTyped postCode houseNumber) "houseNumber")
    with (VStr houseNumber).
  unfold lookup_url, js_to_string.
  by rewrite !EncodingFacts.plain_passes_unchanged.
Qed.

(** C1. Failing input: post code ["1000AA"], house number ["1"], and a
    successful response with details [[{id: "a1", street: "Main"}]]. The
    handler passes [transformAddress] itself to [map], so the transform
    receives the entry and its index 0; the house number typed by the user
    is not among its arguments, whatever the transform is. With the
    transform of the specification the one candidate has id ["a1"] and
    house number [0], not ["1"]. *)
Theorem house_number_is_not_passed_to_transform :
  addresses (submit found_a1 (searchTyped "1000AA" "1"))
  = [transformAddress entry_a1 (VNum 0)]
  ∧ addresses (submit found_a1 (searchTyped "1000AA" "2"))
    = [transformAddress entry_a1 (VNum 0)]
  ∧ (λ candidate, (js_get candidate "id", js_get candidate "houseNumber"))
      <$> addresses (handleAddressSubmit BASE_URL AddressModel.transformAddress
                       found_a1 (searchTyped "1000AA" "1"))
    = [(VStr "a1", VNum 0)].
Proof. done. Qed.

End Handlers.

(** The candidate that [addresses.find] returns is the first one whose
    [id] is the selected value. *)
Lemma find_selected (sel : jsval) (l : list Obj) :
  (∃ a, a ∈ l ∧ js_get a "id" = sel) →
  ∃ found, find (λ address, strict_eq (js_get address "id") sel) l = Some found
           ∧ found ∈ l ∧ js_get found "id" = sel.
Proof.
  intros (a & Ha & Hid).
  destruct (find _ l) as [found|] eqn:Hfind.
  - apply find_some in Hfind as [Hin Heq].
    exists found. split; [done|]. split; [by apply list_elem_of_In|].
    unfold strict_eq in Heq. by apply bool_decide_eq_true in Heq.
  - apply list_elem_of_In in Ha.
    pose proof (find_none _ _ Hfind a Ha) as Hno. simpl in Hno.
    unfold strict_eq in Hno. apply bool_decide_eq_false in Hno. done.
Qed.

Lemma find_unselected (sel : jsval) (l : list Obj) :
  (∀ a, a ∈ l → js_get a "id" ≠ sel) →
  find (λ address, strict_eq (js_get address "id") sel) l = None.
Proof.
  intros Hall. destruct (find _ l) as [found|] eqn:Hfind; [|done].
  apply find_some in Hfind as [Hin Heq].
  unfold strict_eq in Heq. apply bool_decide_eq_true in Heq.
  apply list_elem_of_In in Hin. by destruct (Hall found Hin).
Qed.

(** C4. With first and last name non-empty, a non-empty selection, a
    non-empty candidate list and a candidate whose id is the selection,
    the submission calls [addAddress] exactly once, with the matched
    candidate's properties plus [firstName] and [lastName], and leaves the
    error slot holding the empty string, which shows no message. *)
Theorem person_submit_adds_record (s : App) :
  truthy (field s "firstName") = true →
  truthy (field s "lastName") = true →
  truthy (field s "selectedAddress") = true →
  addresses s ≠ [] →
  (∃ a, a ∈ addresses s ∧ js_get a "id" = field s "selectedAddress") →
  ∃ found : Obj,
    found ∈ addresses s
    ∧ js_get found "id" = field s "selectedAddress"
    ∧ addressBook (handlePersonSubmit s)
      = (addressBook s
         ++ [<[ "lastName" := field s "lastName" ]>
               (<[ "firstName" := field s "firstName" ]> found)])%list
    ∧ error (handlePersonSubmit s) = Some EmptyString
    ∧ error_shown (handlePersonSubmit s) = false.
Proof.
  intros Hf Hl Hsel Hne Hex.
  destruct (find_selected _ _ Hex) as (found & Hfind & Hin & Hid).
  exists found. unfold handlePersonSubmit.
  rewrite Hf, Hl, Hsel, Hfind.
  destruct (addresses s); done.
Qed.

(** C5. The submission checks its preconditions in order and stops at the
    first that fails, without calling [addAddress]: an empty first or last
    name gives the names message whatever the selection; otherwise an
    empty selection or an empty candidate list gives the no-selection
    message; otherwise a selection that is no candidate's id gives the
    not-found message. *)
Theorem person_submit_preconditions (s : App) :
  (truthy (field s "firstName") = false ∨ truthy (field s "lastName") = false →
   handlePersonSubmit s
   = setError (Some "First name and last name fields mandatory!") s)
  ∧ (truthy (field s "firstName") = true →
     truthy (field s "lastName") = true →
     truthy (field s "selectedAddress") = false ∨ addresses s = [] →
     handlePersonSubmit s
     = setError
         (Some "No address selected, try to select an address or find one if you haven't")
         s)
  ∧ (truthy (field s "firstName") = true →
     truthy (field s "lastName") = true →
     truthy (field s "selectedAddress") = true →
     addresses s ≠ [] →
     (∀ a, a ∈ addresses s → js_get a "id" ≠ field s "selectedAddress") →
     handlePersonSubmit s = setError (Some "Selected address not found") s)
  ∧ ∀ message : option string,
      addressBook (setError message s) = addressBook s.
Proof.
  unfold handlePersonSubmit. repeat split.
  - intros [-> | ->]; [done|]. by rewrite orb_true_r.
  - intros -> -> [-> | ->]; [done|]. by rewrite orb_true_r.
  - intros -> -> -> Hne Hall. rewrite (find_unselected _ _ Hall).
    by destruct (addresses s).
Qed.

(** *** The theorems at concrete inputs *)

Local Abbreviation localhost := "http://localhost:3000".
Local Abbreviation transform := AddressModel.transformAddress.

Lemma empty_search_is_rejected_witness :
  truthy (field initialApp "postCode") = false
  ∧ error (handleAddressSubmit localhost transform found_a1 initialApp)
    = Some "Post code and house number are mandatory!"
  ∧ requests (handleAddressSubmit localhost transform found_a1 initialApp) = [].
Proof.
  split; [reflexivity|].
  destruct (empty_search_is_rejected localhost transform found_a1 initialApp)
    as (He & Hr & _); [left; reflexivity|].
  split; [exact He | exact Hr].
Defined.

Lemma failed_search_empties_candidates_witness :
  let previous :=
    typing [("postCode", EmptyString)]
      (handleAddressSubmit localhost transform found_a1
         (searchTyped "1000AA" "1")) in
  length (addresses previous) = 1
  ∧ addresses (handleAddressSubmit localhost transform found_a1 previous) = [].
Proof.
  intros previous. split; [reflexivity|].
  apply (failed_search_empties_candidates localhost transform found_a1 previous).
  left; reflexivity.
Defined.


(** A non-success response that carries no [errormessage] sets the error
    to the empty string, so that no message is shown. *)
Lemma failure_without_errormessage_shows_nothing :
  let s :=
    handleAddressSubmit localhost transform
      (Responded false {| details := None; errormessage := None |})
      (searchTyped "1000AA" "1") in
  error s = Some EmptyString ∧ error_shown s = false.
Proof. split; reflexivity. Qed.

Lemma person_submit_adds_record_witness :
  ∃ found : Obj,
    found ∈ addresses (readyToAdd transform)
    ∧ js_get found "id" = VStr "a1"
    ∧ addressBook (handlePersonSubmit (readyToAdd transform))
      = [<[ "lastName" := VStr "Lovelace" ]>
           (<[ "firstName" := VStr "Ada" ]> found)]
    ∧ error (handlePersonSubmit (readyToAdd transform)) = Some EmptyString
    ∧ error_shown (handlePersonSubmit (readyToAdd transform)) = false.
Proof.
  apply (person_submit_adds_record (readyToAdd transform));
    try reflexivity; [discriminate|].
  exists (transform entry_a1 (VNum 0)). split; [|reflexivity].
  apply list_elem_of_here.
Defined.

Lemma person_submit_preconditions_witness :
  error (handlePersonSubmit initialApp)
  = Some "First name and last name fields mandatory!"
  ∧ error (handlePersonSubmit
             (typing [("firstName", "Ada"); ("lastName", "Lovelace")]
                initialApp))
    = Some "No address selected, try to select an address or find one if you haven't"
  ∧ error (handlePersonSubmit
             (typing [("selectedAddress", "b2")] (readyToAdd transform)))
    = Some "Selected address not found".
Proof.
  split; [|split].
  - rewrite (proj1 (person_submit_preconditions initialApp));
      [reflexivity | left; reflexivity].
  - rewrite (proj1 (proj2 (person_submit_preconditions _)));
      [reflexivity | reflexivity | reflexivity | left; reflexivity].
  - rewrite (proj1 (proj2 (proj2 (person_submit_preconditions _))));
      [reflexivity | reflexivity | reflexivity | reflexivity | discriminate |].
    intros a Ha. apply list_elem_of_singleton in Ha. subst a. discriminate.
Defined.

End WorkflowFacts.

(** ** Further properties of the container *)

#[global] Set Warnings "-clear-no-such-hyp".

Module FormStateMore.
Import FormState FormStateFacts.

Lemma next_act h a : (next h ≤ next (act h a))%nat.
Proof. destruct a; simpl; lia. Qed.

Lemma deref_act h a r : (r < next h)%nat → deref (act h a) r = deref h r.
Proof.
  intros Hr. destruct a as [name value|]; [|reflexivity].
  unfold deref; simpl. rewrite lookup_insert_ne; [done | lia].
Qed.

(** X1. Objects are never written once allocated: whatever is done to the
    container later, a reference taken earlier (a value of [fields] held by
    an older render, the defaults) still reads the same mapping. *)
Theorem stored_objects_never_change (acts : list Action) (h : Hook) (r : ref) :
  (r < next h)%nat → deref (run acts h) r = deref h r.
Proof.
  revert h. induction acts as [|a acts IH]; intros h Hr; [done|].
  simpl. rewrite IH.
  - by apply deref_act.
  - pose proof (next_act h a). lia.
Qed.

Lemma stored_objects_never_change_witness :
  let h := onChange "postCode" "1000AA" (useFormState Workflow.initialFields) in
  (fieldsRef h < next h)%nat
  ∧ deref (run [Change "postCode" "2000BB"; Reset; Change "firstName" "Ada"] h)
      (fieldsRef h)
    = <[ "postCode" := VStr "1000AA" ]> Workflow.initialFields.
Proof.
  intros h. split; [simpl; lia|].
  rewrite (stored_objects_never_change _ h (fieldsRef h)); [|simpl; lia].
  apply fields_onChange.
Defined.

Lemma run_app acts1 acts2 h : run (acts1 ++ acts2) h = run acts2 (run acts1 h).
Proof. apply fold_left_app. Qed.

Lemma untouched_field_kept (n : string) (later : list Action) : ∀ h,
  Forall (λ a, ∃ m w, a = Change m w ∧ m ≠ n) later →
  fields (run later h) !! n = fields h !! n.
Proof.
  induction later as [|a later IH]; intros h Hall; [done|].
  apply Forall_cons in Hall as [(m & w & -> & Hm) Hall].
  simpl. rewrite IH by done. rewrite fields_onChange.
  by rewrite lookup_insert_ne.
Qed.

(** X2. The last write wins: after [onChange n v], and any further changes to
    other fields, field [n] reads [v], whatever happened before. *)
Theorem last_change_is_read (n v : string) (before later : list Action)
    (h : Hook) :
  Forall (λ a, ∃ m w, a = Change m w ∧ m ≠ n) later →
  fields (run (before ++ Change n v :: later) h) !! n = Some (VStr v).
Proof.
  intros Hall. rewrite run_app. simpl.
  rewrite (untouched_field_kept n later _ Hall), fields_onChange.
  apply lookup_insert_eq.
Qed.

Lemma last_change_is_read_witness :
  fields (run ([Change "postCode" "1"; Reset]
               ++ Change "postCode" "1000AA"
               :: [Change "houseNumber" "7"; Change "firstName" "Ada"])
            (useFormState Workflow.initialFields)) !! "postCode"
  = Some (VStr "1000AA").
Proof.
  apply last_change_is_read.
  repeat constructor; eexists _, _; (split; [reflexivity | discriminate]).
Defined.

(** X3. Changes to two different fields give the same mapping in either
    order. *)
Theorem changes_of_different_fields_commute (a b x y : string) (h : Hook) :
  a ≠ b →
  fields (onChange a x (onChange b y h)) = fields (onChange b y (onChange a x h)).
Proof.
  intros Hab. rewrite !fields_onChange. by apply insert_insert_ne.
Qed.

Lemma changes_of_different_fields_commute_witness :
  fields (onChange "firstName" "Ada"
            (onChange "lastName" "Lovelace" (useFormState Workflow.initialFields)))
  = fields (onChange "lastName" "Lovelace"
              (onChange "firstName" "Ada" (useFormState Workflow.initialFields))).
Proof. apply changes_of_different_fields_commute. discriminate. Defined.

(** X4. The key set after a run of changes is the key set before together
    with the names that were changed: a change to an unknown name adds
    that key, and nothing else is ever added. *)
Theorem keys_after_changes (changes : list (string * string)) (h : Hook) :
  dom (fields (run ((λ c, Change c.1 c.2) <$> changes) h))
  = dom (fields h) ∪ list_to_set changes.*1.
Proof.
  revert h. induction changes as [|[n v] changes IH]; intros h; simpl.
  - set_solver.
  - rewrite IH, fields_onChange, dom_insert_L. set_solver.
Qed.

Lemma all_strings_act h a :
  allocated h →
  Observing.all_strings (initialValues h) → Observing.all_strings (fields h) →
  Observing.all_strings (fields (act h a)).
Proof.
  intros Hh Hi Hf. destruct a as [name value|]; simpl.
  - rewrite fields_onChange. intros k v.
    destruct (decide (name = k)) as [->|Hk].
    + rewrite lookup_insert_eq. intros [= <-]. by eexists.
    + rewrite lookup_insert_ne by done. apply Hf.
  - by rewrite fields_resetFields.
Qed.

Lemma all_strings_run acts : ∀ h,
  allocated h →
  Observing.all_strings (initialValues h) → Observing.all_strings (fields h) →
  Observing.all_strings (fields (run acts h)).
Proof.
  induction acts as [|a acts IH]; intros h Hh Hi Hf; [done|].
  simpl. apply IH.
  - by apply allocated_act.
  - by rewrite initialValues_act.
  - by apply all_strings_act.
Qed.

(** X5. Values stay strings: when every initial value is a string, so is every
    value of the current mapping after any calls. *)
Theorem values_stay_strings (D : Obj) (acts : list Action) :
  Observing.all_strings D →
  Observing.all_strings (fields (run acts (useFormState D))).
Proof.
  intros HD. apply all_strings_run; [apply allocated_useFormState | done | done].
Qed.

Lemma initialFields_all_strings : Observing.all_strings Workflow.initialFields.
Proof.
  intros k v. unfold Workflow.initialFields.
  rewrite !lookup_insert, lookup_empty.
  repeat case_decide; intros [= <-]; by eexists.
Qed.

Lemma values_stay_strings_witness :
  Observing.all_strings
    (fields (run [Change "postCode" "1000AA"; Reset; Change "other" "x"]
               (useFormState Workflow.initialFields))).
Proof. apply values_stay_strings, initialFields_all_strings. Defined.

End FormStateMore.

(** ** Further properties of the workflow *)

Module WorkflowMore.
Import Workflow Observing WorkflowFacts.

Lemma not_grown {A} (l : list A) (x : A) : l ≠ (l ++ [x])%list.
Proof.
  intros H. apply (f_equal length) in H. rewrite length_app in H.
  simpl in H. lia.
Qed.

(** [handlePersonSubmit] in its four outcomes. *)
Lemma person_submit_cases (s : App) :
  (∃ message, handlePersonSubmit s = setError (Some message) s
              ∧ message ≠ EmptyString)
  ∨ (truthy (field s "firstName") = true
     ∧ truthy (field s "lastName") = true
     ∧ truthy (field s "selectedAddress") = true
     ∧ ∃ found,
         find (λ address,
                 strict_eq (js_get address "id") (field s "selectedAddress"))
              (addresses s) = Some found
         ∧ handlePersonSubmit s
           = addAddress
               (<[ "lastName" := field s "lastName" ]>
                  (<[ "firstName" := field s "firstName" ]> found))
               (setError (Some EmptyString) s)).
Proof.
  unfold handlePersonSubmit.
  destruct (truthy (field s "firstName")) eqn:Hf; simpl;
    [|left; eexists; split; [reflexivity | discriminate]].
  destruct (truthy (field s "lastName")) eqn:Hl; simpl;
    [|left; eexists; split; [reflexivity | discriminate]].
  destruct (truthy (field s "selectedAddress")) eqn:Hsel; simpl;
    [|left; eexists; split; [reflexivity | discriminate]].
  destruct (length (addresses s) =? 0)%nat;
    [left; eexists; split; [reflexivity | discriminate]|].
  destruct (find _ (addresses s)) as [found|] eqn:Hfind;
    [|left; eexists; split; [reflexivity | discriminate]].
  right. repeat split. by exists found.
Qed.

(** X8. [handlePersonSubmit] writes only the error slot and the address book:
    it never issues a request and never changes a field, the candidate
    list or the loading flag. It always leaves the error slot set (to a
    message, or to the empty string on success), and adds at most one
    record. *)
Theorem person_submit_frame (s : App) :
  let s' := handlePersonSubmit s in
  form s' = form s ∧ loading s' = loading s ∧ addresses s' = addresses s
  ∧ requests s' = requests s ∧ inflight s' = inflight s
  ∧ is_Some (error s')
  ∧ (addressBook s' = addressBook s
     ∨ ∃ record, addressBook s' = (addressBook s ++ [record])%list).
Proof.
  intros s'. subst s'.
  destruct (person_submit_cases s)
    as [(message & -> & _) | (_ & _ & _ & found & _ & ->)]; simpl.
  - repeat split; eauto.
  - repeat split; eauto.
Qed.

(** X9. A record reaches the address book only through a valid submission:
    if [handlePersonSubmit] adds [record], then both names and the
    selection are non-empty, and [record] is a candidate of the current
    list whose id is the selection, with [firstName] and [lastName] set to
    the typed names. *)
Theorem record_added_only_when_valid (s : App) (record : Obj) :
  addressBook (handlePersonSubmit s) = (addressBook s ++ [record])%list →
  truthy (field s "firstName") = true
  ∧ truthy (field s "lastName") = true
  ∧ truthy (field s "selectedAddress") = true
  ∧ js_get record "id" = field s "selectedAddress"
  ∧ js_get record "firstName" = field s "firstName"
  ∧ js_get record "lastName" = field s "lastName"
  ∧ ∃ found,
      found ∈ addresses s
      ∧ ∀ k, k ≠ "firstName" → k ≠ "lastName" → record !! k = found !! k.
Proof.
  destruct (person_submit_cases s)
    as [(message & -> & _) | (Hf & Hl & Hsel & found & Hfind & ->)]; simpl.
  - intros H. by apply not_grown in H.
  - intros [= <-]%app_inv_head.
    apply find_some in Hfind as [Hin Hid].
    unfold strict_eq in Hid. apply bool_decide_eq_true in Hid.
    repeat split; try done.
    + unfold js_get. by rewrite !lookup_insert_ne.
    + unfold js_get. rewrite lookup_insert_ne by done.
      by rewrite lookup_insert_eq.
    + unfold js_get. by rewrite lookup_insert_eq.
    + exists found. split; [by apply list_elem_of_In|].
      intros k Hk1 Hk2. by rewrite !lookup_insert_ne.
Qed.

(** X10. A successful submission clears nothing, so submitting again adds the
    same record a second time. *)
Theorem repeated_submission_adds_twice (s : App) :
  truthy (field s "firstName") = true →
  truthy (field s "lastName") = true →
  truthy (field s "selectedAddress") = true →
  (∃ a, a ∈ addresses s ∧ js_get a "id" = field s "selectedAddress") →
  ∃ record,
    addressBook (handlePersonSubmit s) = (addressBook s ++ [record])%list
    ∧ addressBook (handlePersonSubmit (handlePersonSubmit s))
      = (addressBook s ++ [record; record])%list.
Proof.
  intros Hf Hl Hsel Hex.
  destruct (find_selected _ _ Hex) as (found & Hfind & Hin & Hid).
  assert (∀ e book,
    handlePersonSubmit
      {| form := form s; loading := loading s; error := e;
         addresses := addresses s; requests := requests s;
         inflight := inflight s; addressBook := book |}
    = addAddress
        (<[ "lastName" := field s "lastName" ]>
           (<[ "firstName" := field s "firstName" ]> found))
        (setError (Some EmptyString)
           {| form := form s; loading := loading s; error := e;
              addresses := addresses s; requests := requests s;
              inflight := inflight s; addressBook := book |})) as Hrun.
  { intros e book. unfold handlePersonSubmit, field; simpl.
    unfold field in Hf, Hl, Hsel, Hfind. rewrite Hf, Hl, Hsel, Hfind.
    apply list_elem_of_In in Hin. by destruct (addresses s). }
  eexists. split.
  - destruct s; apply (f_equal addressBook (Hrun _ _)).
  - destruct s as [f l e a r i b]; simpl in *.
    rewrite (Hrun e b). unfold addAddress, setError; simpl.
    rewrite (Hrun _ _). simpl. by rewrite <- app_assoc.
Qed.

(** *** The component as a machine *)

Section Machine.

Variable BASE_URL : string.
Variable transformAddress : Obj → jsval → Obj.

Local Abbreviation begin := (handleAddressSubmit_begin BASE_URL).
Local Abbreviation resume := (handleAddressSubmit_resume transformAddress).
Local Abbreviation step := (Workflow.step BASE_URL transformAddress).
Local Abbreviation steps := (Workflow.steps BASE_URL transformAddress).

Lemma steps_cons e es s : steps (e :: es) s = steps es (step s e).
Proof. reflexivity. Qed.

Lemma begin_frame s :
  form (begin s).1 = form s ∧ loading (begin s).1 = true
  ∧ addresses (begin s).1 = [] ∧ addressBook (begin s).1 = addressBook s
  ∧ requests s `prefix_of` requests (begin s).1.
Proof.
  unfold handleAddressSubmit_begin.
  destruct (negb _ || negb _); simpl; repeat split; try done.
  by apply prefix_app_r.
Qed.

Lemma resume_frame o s :
  form (resume o s) = form s ∧ loading (resume o s) = false
  ∧ addressBook (resume o s) = addressBook s
  ∧ requests (resume o s) = requests s.
Proof.
  unfold handleAddressSubmit_resume. by destruct (try_block _ o).
Qed.

Lemma person_frame s :
  form (handlePersonSubmit s) = form s
  ∧ loading (handlePersonSubmit s) = loading s
  ∧ requests (handlePersonSubmit s) = requests s
  ∧ addressBook s `prefix_of` addressBook (handlePersonSubmit s).
Proof.
  destruct (person_submit_cases s)
    as [(message & -> & _) | (_ & _ & _ & found & _ & ->)]; simpl;
    repeat split; try done.
  by apply prefix_app_r.
Qed.

Lemma two_searches s :
  truthy (field s "postCode") = true → truthy (field s "houseNumber") = true →
  step (step s AddressSubmit) AddressSubmit
  = fetch (lookup_url BASE_URL (field s "postCode") (field s "houseNumber"))
      (fetch (lookup_url BASE_URL (field s "postCode") (field s "houseNumber"))
         (setLoading true (setAddresses [] (setError None s)))).
Proof.
  intros Hp Hh. simpl. rewrite (begin_valid BASE_URL s Hp Hh). simpl.
  by rewrite begin_valid.
Qed.

(** X12. With two lookups in flight, the first to settle turns loading off
    although the other is still awaited. *)
Theorem loading_is_off_while_a_lookup_is_pending (s : App) (o : FetchOutcome) :
  truthy (field s "postCode") = true → truthy (field s "houseNumber") = true →
  let s' := steps [AddressSubmit; AddressSubmit; FetchSettled o] s in
  loading s' = false ∧ inflight s' = S (inflight s).
Proof.
  intros Hp Hh s'. subst s'. rewrite !steps_cons, (two_searches s Hp Hh).
  simpl. unfold handleAddressSubmit_resume. by destruct (try_block _ o).
Qed.

(** X13. Two overlapping lookups: each settlement writes only its own slot,
    the candidate list on success and the error on failure, and the later
    one wins that slot. A failure settling after a success therefore
    leaves the candidates of the first together with the error of the
    second. *)
Theorem overlapping_lookups (s : App) (o1 o2 : FetchOutcome) :
  truthy (field s "postCode") = true → truthy (field s "houseNumber") = true →
  let s' :=
    steps [AddressSubmit; AddressSubmit; FetchSettled o1; FetchSettled o2] s in
  loading s' = false ∧ inflight s' = inflight s
  ∧ addresses s'
    = match try_block transformAddress o2, try_block transformAddress o1 with
      | inr second, _ => second
      | inl _, inr first => first
      | inl _, inl _ => []
      end
  ∧ error s'
    = match try_block transformAddress o2, try_block transformAddress o1 with
      | inl thrown, _ => Some (caught_message thrown)
      | inr _, inl thrown => Some (caught_message thrown)
      | inr _, inr _ => None
      end.
Proof.
  intros Hp Hh s'. subst s'. rewrite !steps_cons, (two_searches s Hp Hh).
  simpl. unfold handleAddressSubmit_resume.
  destruct (try_block _ o1) as [[]|], (try_block _ o2) as [[]|]; done.
Qed.

Lemma form_step s e :
  form (step s e) = FormState.run (form_actions e) (form s).
Proof.
  destruct e as [name value| |o| |]; simpl; try done.
  - apply begin_frame.
  - destruct (inflight s =? 0)%nat; [done | apply resume_frame].
  - apply person_frame.
Qed.

Lemma form_steps (events : list Event) : ∀ s,
  form (steps events s)
  = FormState.run (flat_map form_actions events) (form s).
Proof.
  induction events as [|e events IH]; intros s; [done|].
  rewrite steps_cons, IH, form_step. simpl.
  by rewrite FormStateMore.run_app.
Qed.

(** X14. The component drives the field container through [onChange] and
    [resetFields] alone: after any events the container is what the input
    and clear events among them make it; submissions and settled lookups
    leave every field as it is. *)
Theorem fields_follow_input_events (events : list Event) (s : App) :
  form (steps events s)
  = FormState.run (flat_map form_actions events) (form s).
Proof. apply form_steps. Qed.

(** X15. In every state the component can reach, each of its five fields is
    present and every field holds a string: no field read ever yields
    [undefined]. *)
Theorem fields_are_always_present_strings (events : list Event) (k : string) :
  k ∈ ["postCode"; "houseNumber"; "firstName"; "lastName"; "selectedAddress"] →
  ∃ t : string, field (steps events initialApp) k = VStr t.
Proof.
  intros Hk. unfold field, js_get. rewrite form_steps. simpl.
  pose proof (FormStateFacts.dom_fields_run (flat_map form_actions events)
                (FormState.useFormState initialFields)
                (FormStateFacts.allocated_useFormState _)) as Hdom.
  assert (k ∈ dom initialFields) as Hin.
  { apply elem_of_dom. unfold initialFields.
    repeat (apply elem_of_cons in Hk as [->|Hk]); [..|by apply elem_of_nil in Hk];
      by rewrite !lookup_insert. }
  apply Hdom in Hin; [|done].
  apply elem_of_dom in Hin as [v Hv]. rewrite Hv. simpl.
  eapply FormStateMore.all_strings_run; [| | |exact Hv].
  - apply FormStateFacts.allocated_useFormState.
  - apply FormStateMore.initialFields_all_strings.
  - apply FormStateMore.initialFields_all_strings.
Qed.

Lemma initialValues_reachable events :
  FormState.initialValues (form (steps events initialApp)) = initialFields.
Proof.
  rewrite form_steps.
  apply (FormStateFacts.run_preserves _ (FormState.useFormState initialFields)).
  apply FormStateFacts.allocated_useFormState.
Qed.

(** X16. The clear button, in any state the component can reach: every field
    is back at its initial, empty value, the candidate list and the error
    are cleared; the loading flag and a lookup in flight are left as they
    are. *)
Theorem clear_all_restores_initial_fields (events : list Event) :
  let s := steps events initialApp in
  FormState.fields (form (step s ClearAll)) = initialFields
  ∧ addresses (step s ClearAll) = []
  ∧ error (step s ClearAll) = None
  ∧ loading (step s ClearAll) = loading s
  ∧ inflight (step s ClearAll) = inflight s.
Proof.
  intros s. subst s. simpl. repeat split.
  rewrite FormStateFacts.fields_resetFields. apply initialValues_reachable.
Qed.

(** X17. Clearing does not cancel a lookup: a response that arrives after the
    clear button was clicked still fills the candidate list, next to the
    emptied fields. *)
Theorem clearing_does_not_cancel_a_lookup (s : App) (data : Body)
    (entries : list Obj) :
  truthy (field s "postCode") = true → truthy (field s "houseNumber") = true →
  details data = Some entries →
  let s' := steps [AddressSubmit; ClearAll; FetchSettled (Responded true data)] s in
  addresses s'
  = imap (λ index entry, transformAddress entry (VNum (Z.of_nat index))) entries
  ∧ FormState.fields (form s') = FormState.initialValues (form s)
  ∧ error s' = None ∧ loading s' = false.
Proof.
  intros Hp Hh Hd s'. subst s'. rewrite !steps_cons. simpl.
  rewrite (begin_valid BASE_URL s Hp Hh). simpl.
  unfold handleAddressSubmit_resume, try_block. rewrite Hd. done.
Qed.

(** X19. A search submission empties the candidate list but keeps the
    selection; a personal-info submission made before candidates are back
    is refused with the no-selection message, and adds nothing. *)
Theorem person_submit_during_search (s : App) :
  truthy (field s "firstName") = true → truthy (field s "lastName") = true →
  let searching := step s AddressSubmit in
  field searching "selectedAddress" = field s "selectedAddress"
  ∧ handlePersonSubmit searching
    = setError
        (Some "No address selected, try to select an address or find one if you haven't")
        searching.
Proof.
  intros Hf Hl searching. subst searching. simpl.
  destruct (begin_frame s) as (Hform & _ & Ha & _).
  unfold handlePersonSubmit, field in *. rewrite Hform, Hf, Hl, Ha. simpl.
  split; [done|]. by rewrite orb_true_r.
Qed.

(** *** Settlements, with other events in between *)

Lemma steps_snoc events e s : steps (events ++ [e]) s = step (steps events s) e.
Proof. unfold Workflow.steps. by rewrite fold_left_app. Qed.

Lemma settle_step s o :
  inflight s ≠ 0%nat → step s (FetchSettled o) = resume o s.
Proof. intros Hs. simpl. by destruct (inflight s). Qed.

Lemma person_keeps_candidates s :
  addresses (handlePersonSubmit s) = addresses s
  ∧ inflight (handlePersonSubmit s) = inflight s.
Proof.
  destruct (person_submit_cases s)
    as [(message & -> & _) | (_ & _ & _ & found & _ & ->)]; done.
Qed.

Lemma begin_keeps_inflight s :
  inflight s ≠ 0%nat → inflight (begin s).1 ≠ 0%nat.
Proof.
  intros Hs. unfold handleAddressSubmit_begin.
  destruct (negb _ || negb _); simpl; [done | lia].
Qed.

(** An event that is not a settlement leaves an empty candidate list empty
    and an awaited lookup awaited. *)
Lemma quiet_step s e :
  is_settlement e = false →
  addresses s = [] → inflight s ≠ 0%nat →
  addresses (step s e) = [] ∧ inflight (step s e) ≠ 0%nat.
Proof.
  intros He Ha Hi. destruct e as [name value| |o| |]; simpl; try done.
  - split; [apply begin_frame | by apply begin_keeps_inflight].
  - destruct (person_keeps_candidates s) as [-> ->]. done.
Qed.

Lemma quiet_steps events : ∀ s,
  Forall (λ e, is_settlement e = false) events →
  addresses s = [] → inflight s ≠ 0%nat →
  addresses (steps events s) = [] ∧ inflight (steps events s) ≠ 0%nat.
Proof.
  induction events as [|e events IH]; intros s Hall Ha Hi; [done|].
  apply Forall_cons in Hall as [He Hall].
  destruct (quiet_step s e He Ha Hi) as [Ha' Hi'].
  rewrite steps_cons. by apply IH.
Qed.

(** A search that passes validation, any events but settlements, and then
    the settlement of a lookup: the settlement resumes the handler in a
    state whose candidate list is still empty. *)
Lemma search_then_settlement s between o :
  truthy (field s "postCode") = true → truthy (field s "houseNumber") = true →
  Forall (λ e, is_settlement e = false) between →
  steps (AddressSubmit :: between ++ [FetchSettled o]) s
  = resume o (steps between (step s AddressSubmit))
  ∧ addresses (steps between (step s AddressSubmit)) = [].
Proof.
  intros Hp Hh Hall.
  destruct (quiet_steps between (step s AddressSubmit) Hall) as [Ha Hi].
  - simpl. by rewrite (begin_valid BASE_URL s Hp Hh).
  - simpl. by rewrite (begin_valid BASE_URL s Hp Hh).
  - split; [|done]. rewrite steps_cons, steps_snoc. by apply settle_step.
Qed.

(** A run of [handleAddressSubmit] with nothing in between is the search
    event followed at once by the settlement. *)
Lemma uninterrupted_run s o :
  truthy (field s "postCode") = true → truthy (field s "houseNumber") = true →
  handleAddressSubmit BASE_URL transformAddress o s
  = steps [AddressSubmit; FetchSettled o] s.
Proof.
  intros Hp Hh.
  change (steps [AddressSubmit; FetchSettled o] s)
    with (steps (AddressSubmit :: [] ++ [FetchSettled o]) s).
  destruct (search_then_settlement s [] o Hp Hh) as [-> _]; [done|].
  rewrite (submit_valid BASE_URL transformAddress o s Hp Hh). simpl.
  by rewrite (begin_valid BASE_URL s Hp Hh).
Qed.


(** X6. When an awaited lookup settles with a success response that has a
    [details] list, the candidate list becomes one candidate per entry, in
    the order of the response, each the transform of its entry and index,
    and loading is cleared; the settlement writes nothing else: error,
    fields, requests and address book stay as they are. When the
    settlement follows the search with nothing in between, the error is
    therefore still cleared and exactly one request was issued. *)
Theorem successful_settlement_fills_candidates (data : Body)
    (entries : list Obj) :
  details data = Some entries →
  (∀ awaiting : App,
     inflight awaiting ≠ 0%nat →
     let s' := step awaiting (FetchSettled (Responded true data)) in
     addresses s'
     = imap (λ index entry, transformAddress entry (VNum (Z.of_nat index)))
            entries
     ∧ length (addresses s') = length entries
     ∧ loading s' = false
     ∧ error s' = error awaiting ∧ form s' = form awaiting
     ∧ requests s' = requests awaiting
     ∧ addressBook s' = addressBook awaiting
     ∧ inflight s' = pred (inflight awaiting))
  ∧ (∀ s : App,
       truthy (field s "postCode") = true →
       truthy (field s "houseNumber") = true →
       let s' := steps [AddressSubmit; FetchSettled (Responded true data)] s in
       addresses s'
       = imap (λ index entry, transformAddress entry (VNum (Z.of_nat index)))
              entries
       ∧ error s' = None ∧ loading s' = false
       ∧ requests s'
         = (requests s
            ++ [lookup_url BASE_URL (field s "postCode")
                  (field s "houseNumber")])%list
       ∧ inflight s' = inflight s
       ∧ form s' = form s ∧ addressBook s' = addressBook s).
Proof.
  intros Hd. split.
  - intros awaiting Hi s'. subst s'. rewrite (settle_step awaiting _ Hi).
    unfold handleAddressSubmit_resume, try_block. rewrite Hd. simpl.
    split; [done|]. split; [|done].
    unfold map_transformAddress. by rewrite length_imap.
  - intros s Hp Hh s'. subst s'.
    rewrite <- (uninterrupted_run s _ Hp Hh),
      (submit_valid BASE_URL transformAddress _ s Hp Hh).
    unfold handleAddressSubmit_resume, try_block. by rewrite Hd.
Qed.

(** X7. A success response whose body has no [details] is handled as a
    failure: [data.details.map] throws, so the settlement shows the thrown
    message and clears loading, and leaves the candidate list as it finds
    it; when the settlement follows the search with nothing in between,
    that list is empty. *)
Theorem settlement_without_details_is_an_error (data : Body) :
  details data = None →
  (∀ awaiting : App,
     inflight awaiting ≠ 0%nat →
     let s' := step awaiting (FetchSettled (Responded true data)) in
     error_shown s' = true ∧ loading s' = false
     ∧ addresses s' = addresses awaiting)
  ∧ (∀ s : App,
       truthy (field s "postCode") = true →
       truthy (field s "houseNumber") = true →
       let s' := steps [AddressSubmit; FetchSettled (Responded true data)] s in
       error_shown s' = true ∧ loading s' = false ∧ addresses s' = []).
Proof.
  intros Hd. split.
  - intros awaiting Hi s'. subst s'. rewrite (settle_step awaiting _ Hi).
    unfold handleAddressSubmit_resume, try_block. by rewrite Hd.
  - intros s Hp Hh s'. subst s'.
    rewrite <- (uninterrupted_run s _ Hp Hh),
      (submit_valid BASE_URL transformAddress _ s Hp Hh).
    unfold handleAddressSubmit_resume, try_block. by rewrite Hd.
Qed.


(** What the request of a search looks like, when there is one. *)
Lemma requests_step s e :
  requests (step s e) = requests s
  ∨ ∃ postCode houseNumber,
      requests (step s e)
      = (requests s ++ [lookup_url BASE_URL postCode houseNumber])%list.
Proof.
  destruct e as [name value| |o| |]; simpl; try (by left).
  - unfold handleAddressSubmit_begin.
    destruct (negb _ || negb _); simpl; [by left|]. right. by eexists _, _.
  - left. destruct (inflight s =? 0)%nat; [done | apply resume_frame].
  - left. apply person_frame.
Qed.

End Machine.

Lemma fields_are_always_present_strings_witness :
  ∃ t : string,
    field (Workflow.steps "http://localhost:3000" AddressModel.transformAddress
             [InputChange "postCode" "1000AA"; AddressSubmit; ClearAll]
             initialApp) "postCode" = VStr t.
Proof.
  apply fields_are_always_present_strings. apply list_elem_of_here.
Defined.


End WorkflowMore.

(** ** Further properties of the encoders and of the request *)

Module EncodingMore.
Import Encoding Observing.

Lemma append_cons c a b : String c a +:+ b = String c (a +:+ b).
Proof. reflexivity. Qed.

Lemma length_append a b :
  String.length (a +:+ b) = String.length a + String.length b.
Proof.
  induction a as [|c a IH]; [done|]. rewrite append_cons. simpl. by rewrite IH.
Qed.

Lemma encode_with_append keep a b :
  encode_with keep (a +:+ b) = encode_with keep a +:+ encode_with keep b.
Proof.
  induction a as [|c a IH]; [done|].
  rewrite append_cons. cbn [encode_with]. rewrite IH.
  generalize (keep c) as k. intros k.
  induction k as [|d k IHk]; [done|]. by rewrite !append_cons, IHk.
Qed.

Lemma query_safe_append a b :
  query_safe (a +:+ b) = query_safe a && query_safe b.
Proof.
  induction a as [|c a IH]; [done|].
  rewrite append_cons. simpl. rewrite IH. by rewrite andb_assoc.
Qed.

Lemma urlencoded_byte_safe c : query_safe (urlencoded_byte c) = true.
Proof. destruct c as [[] [] [] [] [] [] [] []]; reflexivity. Qed.

Lemma urlencoded_safe s : query_safe (urlencoded s) = true.
Proof.
  unfold urlencoded. induction s as [|c s IH]; [done|].
  cbn [encode_with]. by rewrite query_safe_append, urlencoded_byte_safe, IH.
Qed.

Local Abbreviation safe_lookup_url BASE_URL :=
  (λ url : string,
     ∃ postcode streetnumber : string,
       url = BASE_URL +:+ "/api/getAddresses?postcode=" +:+ postcode
             +:+ "&streetnumber=" +:+ streetnumber
       ∧ query_safe postcode = true ∧ query_safe streetnumber = true).

Lemma lookup_url_safe BASE_URL postCode houseNumber :
  safe_lookup_url BASE_URL (Workflow.lookup_url BASE_URL postCode houseNumber).
Proof.
  eexists _, _. split; [reflexivity|]. split; apply urlencoded_safe.
Qed.

Lemma requests_stay_safe BASE_URL transformAddress events : ∀ s,
  Forall (safe_lookup_url BASE_URL) (Workflow.requests s) →
  Forall (safe_lookup_url BASE_URL)
    (Workflow.requests (Workflow.steps BASE_URL transformAddress events s)).
Proof.
  induction events as [|e events IH]; intros s Hs; [done|].
  rewrite WorkflowMore.steps_cons. apply IH.
  destruct (WorkflowMore.requests_step BASE_URL transformAddress s e)
    as [-> | (postCode & houseNumber & ->)]; [done|].
  apply Forall_app. split; [done|].
  apply Forall_singleton, lookup_url_safe.
Qed.

(** X20. Every lookup request the component issues, in any state it can
    reach, is [<base>/api/getAddresses?postcode=P&streetnumber=S] where
    [P] and [S] consist of letters, digits and [* - . _ + %] only: they
    hold no [&], [=], [#] or space, so typed text cannot add or cut a
    parameter. *)
Theorem issued_requests_are_safe (BASE_URL : string)
    (transformAddress : Obj → jsval → Obj) (events : list Workflow.Event)
    (url : string) :
  url ∈ Workflow.requests
          (Workflow.steps BASE_URL transformAddress events Workflow.initialApp) →
  ∃ postcode streetnumber : string,
    url = BASE_URL +:+ "/api/getAddresses?postcode=" +:+ postcode
          +:+ "&streetnumber=" +:+ streetnumber
    ∧ query_safe postcode = true ∧ query_safe streetnumber = true.
Proof.
  intros Hurl.
  pose proof (requests_stay_safe BASE_URL transformAddress events
                Workflow.initialApp (Forall_nil_2 _)) as Hall.
  rewrite Forall_forall in Hall. by apply Hall.
Qed.

Lemma issued_requests_are_safe_witness :
  ∃ postcode streetnumber : string,
    "http://localhost:3000/api/getAddresses?postcode=10%2526x%253D1%2520%2523&streetnumber=7"
    = "http://localhost:3000" +:+ "/api/getAddresses?postcode=" +:+ postcode
      +:+ "&streetnumber=" +:+ streetnumber
    ∧ query_safe postcode = true ∧ query_safe streetnumber = true.
Proof.
  apply (issued_requests_are_safe "http://localhost:3000"
           AddressModel.transformAddress
           [Workflow.InputChange "postCode" "10&x=1 #";
            Workflow.InputChange "houseNumber" "7"; Workflow.AddressSubmit]).
  apply list_elem_of_here.
Defined.

(** The text that both encoders make of one byte. *)
Lemma twice_encoded_byte c :
  (plain_byte c = true
   ∧ encode_with urlencoded_byte (uri_component_byte c) = String c EmptyString)
  ∨ (plain_byte c = false
     ∧ 3 ≤ String.length (encode_with urlencoded_byte (uri_component_byte c)))%nat.
Proof.
  destruct c as [[] [] [] [] [] [] [] []];
    first [left; split; reflexivity | right; split; [reflexivity | simpl; lia]].
Qed.

Lemma twice_encoded_length s :
  (String.length s ≤ String.length (urlencoded (encodeURIComponent s)))%nat
  ∧ (plain s = false →
     String.length s < String.length (urlencoded (encodeURIComponent s)))%nat.
Proof.
  unfold urlencoded, encodeURIComponent.
  induction s as [|c s [IHle IHlt]]; [split; [done | discriminate]|].
  cbn [encode_with plain]. rewrite encode_with_append, length_append. simpl.
  destruct (twice_encoded_byte c) as [[-> ->] | [-> Hlen]]; simpl.
  - split; [lia|]. intros Hs. specialize (IHlt Hs). lia.
  - split; [lia|]. intros _. lia.
Qed.

(** X21. A typed value reaches the request URL unchanged exactly when it is
    made of letters, digits and [- _ . *]; any other byte makes the text in
    the URL longer than what was typed. *)
Theorem value_is_sent_as_typed_iff_plain (v : string) :
  urlencoded (encodeURIComponent v) = v ↔ plain v = true.
Proof.
  split.
  - intros Heq. destruct (plain v) eqn:Hplain; [done|].
    destruct (twice_encoded_length v) as [_ Hlt]. specialize (Hlt Hplain).
    rewrite Heq in Hlt. lia.
  - apply EncodingFacts.plain_passes_unchanged.
Qed.

End EncodingMore.

(** ** Properties of [Button] and [Form] *)

Module ComponentsFacts.
Import Components.

Lemma elem_of_cn base conditional k :
  k ∈ cn base conditional
  ↔ (k = base ∧ base ≠ EmptyString) ∨ conditional !! k = Some true.
Proof.
  unfold cn. rewrite elem_of_union, elem_of_dom. split.
  - intros [Hk | [v Hv]].
    + left. destruct base; simpl in Hk; [by apply elem_of_empty in Hk|].
      apply elem_of_singleton in Hk. by subst k.
    + right. apply map_lookup_filter_Some in Hv as [Hv Htrue].
      simpl in Htrue. by subst v.
  - intros [[-> Hbase] | Hk].
    + left. destruct base; [done|]. simpl. by apply elem_of_singleton.
    + right. exists true. by apply map_lookup_filter_Some.
Qed.

Lemma NoDup_four (a b c d : string) :
  NoDup [a; b; c; d] → a ≠ b ∧ a ≠ c ∧ a ≠ d ∧ b ≠ c ∧ b ≠ d ∧ c ≠ d.
Proof.
  intros Hnd.
  apply NoDup_cons in Hnd as [Ha Hnd]. apply NoDup_cons in Hnd as [Hb Hnd].
  apply NoDup_cons in Hnd as [Hc _].
  repeat rewrite not_elem_of_cons in Ha.
  repeat rewrite not_elem_of_cons in Hb.
  repeat rewrite not_elem_of_cons in Hc.
  destruct Ha as (? & ? & ? & _), Hb as (? & ? & _), Hc as (? & _). done.
Qed.

Section Button.

Variables button_class primary_class secondary_class loading_class : string.

Local Abbreviation Button :=
  (Components.Button button_class primary_class secondary_class loading_class).

(** X22. With four different class names in the style sheet, [Button] puts the
    primary class on exactly when the variant is absent or ["primary"], the
    secondary class exactly when it is ["secondary"], so never both; the
    loading class goes with the spinner, which shows exactly when
    [loading] is given and true; and the base class is always there. *)
Theorem Button_classes (props : ButtonProps) :
  NoDup [button_class; primary_class; secondary_class; loading_class] →
  button_class ≠ EmptyString →
  button_class ∈ className (Button props)
  ∧ (primary_class ∈ className (Button props)
     ↔ variant props = None ∨ variant props = Some "primary")
  ∧ (secondary_class ∈ className (Button props)
     ↔ variant props = Some "secondary")
  ∧ (loading_class ∈ className (Button props) ↔ spinner (Button props) = true)
  ∧ (spinner (Button props) = true ↔ loading props = Some true)
  ∧ ¬ (primary_class ∈ className (Button props)
       ∧ secondary_class ∈ className (Button props)).
Proof.
  intros Hnd Hbase.
  destruct (NoDup_four _ _ _ _ Hnd) as (Hbp & Hbs & Hbl & Hps & Hpl & Hsl).
  unfold Components.Button; simpl. rewrite !elem_of_cn.
  rewrite lookup_insert_eq.
  rewrite (lookup_insert_ne _ loading_class secondary_class),
    lookup_insert_eq by done.
  rewrite (lookup_insert_ne _ loading_class primary_class),
    (lookup_insert_ne _ secondary_class primary_class),
    lookup_insert_eq by done.
  assert (∀ v : string, Some (bool_decide (v = "primary")) = Some true
                        ↔ v = "primary") as Hdp.
  { intros v. split; [intros [= H]; by apply bool_decide_eq_true in H|].
    intros ->. done. }
  assert (∀ v : string, Some (bool_decide (v = "secondary")) = Some true
                        ↔ v = "secondary") as Hds.
  { intros v. split; [intros [= H]; by apply bool_decide_eq_true in H|].
    intros ->. done. }
  rewrite Hdp, Hds.
  split; [by left|].
  split; [|split; [|split; [|split]]].
  - destruct (variant props) as [v|]; simpl; naive_solver.
  - destruct (variant props) as [v|]; simpl; naive_solver.
  - split; [intros [[? _] | [= ->]]; congruence | intros ->; by right].
  - destruct (loading props) as [[]|]; simpl; naive_solver.
  - destruct (variant props) as [v|]; simpl; naive_solver.
Qed.

(** X23. The submit button of a [Form] is a primary submit button whose spinner
    shows exactly when the form is given [loading]. *)
Theorem Form_submit_button (loading : bool) :
  NoDup [button_class; primary_class; secondary_class; loading_class] →
  typeAttribute (Button (Form_submit loading)) = "submit"
  ∧ spinner (Button (Form_submit loading)) = loading
  ∧ primary_class ∈ className (Button (Form_submit loading))
  ∧ secondary_class ∉ className (Button (Form_submit loading)).
Proof.
  intros Hnd.
  destruct (NoDup_four _ _ _ _ Hnd) as (Hbp & Hbs & Hbl & Hps & Hpl & Hsl).
  unfold Components.Button; simpl. rewrite !elem_of_cn.
  rewrite (lookup_insert_ne _ loading_class secondary_class),
    lookup_insert_eq by done.
  rewrite (lookup_insert_ne _ loading_class primary_class),
    (lookup_insert_ne _ secondary_class primary_class),
    lookup_insert_eq by done.
  repeat split; [by right|]. intros [[? _] | [=]]. congruence.
Qed.

End Button.

Lemma dash_free_append_dash a b : dash_free (a +:+ "-" +:+ b) = false.
Proof.
  induction a as [|c a IH]; [done|].
  rewrite EncodingMore.append_cons. simpl. rewrite IH. apply andb_false_r.
Qed.

Lemma dashed_suffix_inj (a b d e : string) :
  dash_free d = true → dash_free e = true →
  a +:+ "-" +:+ d = b +:+ "-" +:+ e → d = e.
Proof.
  intros Hd He. revert b. induction a as [|c a IH]; intros [|c' b] Heq.
  - change (String "-" d = String "-" e) in Heq. by injection Heq.
  - change (String "-" d = String c' (b +:+ "-" +:+ e)) in Heq.
    injection Heq as _ ->. by rewrite dash_free_append_dash in Hd.
  - change (String c (a +:+ "-" +:+ d) = String "-" e) in Heq.
    injection Heq as _ <-. by rewrite dash_free_append_dash in He.
  - change (String c (a +:+ "-" +:+ d) = String c' (b +:+ "-" +:+ e)) in Heq.
    injection Heq as _ Heq. by apply (IH b).
Qed.

Lemma pretty_N_go_dash_free (x : N) : ∀ s,
  dash_free s = true → dash_free (pretty_N_go x s) = true.
Proof.
  induction (N.lt_wf_0 x) as [x _ IH]; intros s Hs.
  assert (x = 0 ∨ 0 < x)%N as [->|Hx] by lia.
  - by rewrite pretty_N_go_0.
  - rewrite pretty_N_go_step by done. apply IH; [by apply N.div_lt|].
    simpl. rewrite Hs, andb_true_r.
    unfold pretty_N_char. by repeat case_match.
Qed.

Lemma pretty_nat_dash_free (n : nat) : dash_free (pretty n) = true.
Proof.
  unfold pretty, pretty_nat, pretty, pretty_N.
  case_decide; [done|]. by apply pretty_N_go_dash_free.
Qed.

(** X24. The React keys that [Form] gives its rows are pairwise different,
    whatever the entries' names (also equal names, or names that hold a
    dash or digits). *)
Theorem Form_keys_are_distinct (formEntries : list FormEntry) :
  NoDup (Form_keys formEntries).
Proof.
  apply NoDup_alt. intros i j key. unfold Form_keys.
  rewrite !list_lookup_imap.
  destruct (formEntries !! i) as [ei|]; [|done].
  destruct (formEntries !! j) as [ej|]; [|done]. simpl.
  intros [= <-] [= Heq].
  apply dashed_suffix_inj in Heq; try apply pretty_nat_dash_free.
  by apply (inj pretty) in Heq.
Qed.

End ComponentsFacts.

(** ** The further properties at concrete inputs *)

Module Examples.
Import Workflow Observing.

Local Abbreviation localhost := "http://localhost:3000".
Local Abbreviation transform := AddressModel.transformAddress.
Local Abbreviation typed := (searchTyped "1000AA" "1").
Local Abbreviation not_found :=
  (Responded false {| details := None; errormessage := Some "not found" |}).


Lemma successful_settlement_fills_candidates_witness :
  let s' := steps localhost transform [AddressSubmit; FetchSettled found_a1] typed in
  addresses s' = [transform entry_a1 (VNum 0)]
  ∧ error s' = None ∧ loading s' = false.
Proof.
  destruct (WorkflowMore.successful_settlement_fills_candidates localhost
              transform {| details := Some [entry_a1]; errormessage := None |}
              [entry_a1]) as [_ Hrun]; [reflexivity|].
  destruct (Hrun typed) as (Ha & He & Hl & _); [reflexivity..|].
  repeat split; assumption.
Defined.

Lemma settlement_without_details_is_an_error_witness :
  let s' :=
    steps localhost transform
      [AddressSubmit;
       FetchSettled (Responded true {| details := None; errormessage := None |})]
      typed in
  error_shown s' = true ∧ loading s' = false ∧ addresses s' = [].
Proof.
  destruct (WorkflowMore.settlement_without_details_is_an_error localhost
              transform {| details := None; errormessage := None |})
    as [_ Hrun]; [reflexivity|].
  apply (Hrun typed); reflexivity.
Defined.


Lemma record_added_only_when_valid_witness :
  let record :=
    <[ "lastName" := VStr "Lovelace" ]>
      (<[ "firstName" := VStr "Ada" ]> (transform entry_a1 (VNum 0))) in
  js_get record "id" = field (readyToAdd transform) "selectedAddress"
  ∧ js_get record "firstName" = field (readyToAdd transform) "firstName".
Proof.
  intros record.
  destruct (WorkflowMore.record_added_only_when_valid
              (readyToAdd transform) record)
    as (_ & _ & _ & Hid & Hfirst & _); [reflexivity|].
  split; assumption.
Defined.

Lemma repeated_submission_adds_twice_witness :
  ∃ record,
    addressBook (handlePersonSubmit (readyToAdd transform)) = [record]
    ∧ addressBook (handlePersonSubmit (handlePersonSubmit (readyToAdd transform)))
      = [record; record].
Proof.
  apply (WorkflowMore.repeated_submission_adds_twice (readyToAdd transform));
    try reflexivity.
  exists (transform entry_a1 (VNum 0)). split; [|reflexivity].
  apply list_elem_of_here.
Defined.

Lemma loading_is_off_while_a_lookup_is_pending_witness :
  let s' :=
    steps localhost transform
      [AddressSubmit; AddressSubmit; FetchSettled not_found] typed in
  loading s' = false ∧ inflight s' = 1.
Proof.
  apply (WorkflowMore.loading_is_off_while_a_lookup_is_pending localhost
           transform typed not_found); reflexivity.
Defined.

Lemma overlapping_lookups_witness :
  let s' :=
    steps localhost transform
      [AddressSubmit; AddressSubmit; FetchSettled found_a1;
       FetchSettled not_found] typed in
  addresses s' = [transform entry_a1 (VNum 0)] ∧ error s' = Some "not found".
Proof.
  destruct (WorkflowMore.overlapping_lookups localhost transform typed
              found_a1 not_found) as (_ & _ & Ha & He); [reflexivity..|].
  split; [exact Ha | exact He].
Defined.

Lemma clearing_does_not_cancel_a_lookup_witness :
  let s' :=
    steps localhost transform [AddressSubmit; ClearAll; FetchSettled found_a1]
      typed in
  addresses s' = [transform entry_a1 (VNum 0)]
  ∧ FormState.fields (form s') = initialFields.
Proof.
  destruct (WorkflowMore.clearing_does_not_cancel_a_lookup localhost transform
              typed {| details := Some [entry_a1]; errormessage := None |}
              [entry_a1]) as (Ha & Hf & _); [reflexivity..|].
  split; [exact Ha | exact Hf].
Defined.

Lemma person_submit_during_search_witness :
  error
    (handlePersonSubmit (step localhost transform (readyToAdd transform) AddressSubmit))
  = Some "No address selected, try to select an address or find one if you haven't".
Proof.
  destruct (WorkflowMore.person_submit_during_search localhost transform
              (readyToAdd transform)) as [_ ->]; reflexivity.
Defined.

Lemma value_is_sent_as_typed_iff_plain_witness :
  Encoding.urlencoded (Encoding.encodeURIComponent "1000AA") = "1000AA"
  ∧ Encoding.plain "Main St." = false.
Proof.
  split.
  - apply EncodingMore.value_is_sent_as_typed_iff_plain. reflexivity.
  - destruct (Encoding.plain "Main St.") eqn:Hplain; [|reflexivity].
    apply EncodingMore.value_is_sent_as_typed_iff_plain in Hplain.
    discriminate Hplain.
Defined.

Lemma Button_classes_witness :
  let view :=
    Components.Button "btn" "primary" "secondary" "loading"
      {| Components.type := None; Components.variant := Some "secondary";
         Components.loading := None |} in
  "btn" ∈ Components.className view ∧ ("secondary" ∈ Components.className view ↔ True)
  ∧ ¬ ("primary" ∈ Components.className view ∧ "secondary" ∈ Components.className view).
Proof.
  intros view.
  destruct (ComponentsFacts.Button_classes "btn" "primary" "secondary" "loading"
              {| Components.type := None; Components.variant := Some "secondary";
         Components.loading := None |})
    as (Hb & _ & Hs & _ & _ & Hno).
  - by apply (bool_decide_unpack _).
  - discriminate.
  - split; [exact Hb|]. split; [|exact Hno].
    split; [done|]. intros _. by apply Hs.
Defined.

Lemma Form_submit_button_witness :
  Components.typeAttribute (Components.Button "btn" "primary" "secondary" "loading" (Components.Form_submit true))
  = "submit"
  ∧ Components.spinner (Components.Button "btn" "primary" "secondary" "loading" (Components.Form_submit true))
    = true.
Proof.
  destruct (ComponentsFacts.Form_submit_button "btn" "primary" "secondary"
              "loading" true) as (Ht & Hs & _).
  - by apply (bool_decide_unpack _).
  - split; [exact Ht | exact Hs].
Defined.

End Examples.
